(** * Backend selection of the vector memory subsystem

    A shallow embedding of [autogpt/memory/vector/__init__.py]: the
    module-level list [supported_memory], the factory [get_memory] and the
    accessor [get_supported_memory_backends], followed by models of the
    providers the factory instantiates. *)

From Stdlib Require Import ZArith Lia Ascii.
From stdpp Require Import base option list strings gmap sorting.

Open Scope string_scope.

(** ** Python values the module handles *)

(** Modelled from the spec: the class [Config] lives in [autogpt.config],
    outside this module.  [get_memory] reads its attribute
    [memory_backend]; the file path and the embedding dimensionality are
    the two further configuration inputs the specification lists for the
    file-backed provider. *)
Record Config : Type := mkConfig {
  memory_backend : string;
  memory_file : string;
  embedding_dim : nat
}.

(** The two provider classes are imported, not defined, by the module.  An
    instance is represented by the constructor call that produced it:
    [JSONFileMemory(config)] or [NoMemory()]. *)
Inductive VectorMemory : Type :=
| JSONFileMemory (config : Config)
| NoMemory.

(** The two exception classes the module raises, with their message. *)
Inductive exn : Type :=
| NotImplementedError (msg : string)
| ValueError (msg : string).

(** The error taxonomy of the specification, and the Python exception
    class that stands for each kind at selection time. *)
Inductive selection_error : Type := BackendRetired | UnknownBackend.

Definition error_kind (e : exn) : selection_error :=
  match e with
  | NotImplementedError _ => BackendRetired
  | ValueError _ => UnknownBackend
  end.

Definition exn_message (e : exn) : string :=
  match e with
  | NotImplementedError msg => msg
  | ValueError msg => msg
  end.

(** ** Interpreter state

    Python lists are heap objects reached through references.  The state
    holds the list objects and the log of provider instances constructed
    so far; constructing a provider is the only way the module can reach
    the file system. *)
Definition ref := positive.

Record State : Type := mkState {
  heap : gmap ref (list string);
  constructed : list VectorMemory
}.

(** A computation either raises or returns, and leaves a state. *)
Definition M (A : Type) : Type := State -> (exn + A) * State.

Definition ret {A} (a : A) : M A := fun s => (inr a, s).

Definition raise {A} (e : exn) : M A := fun s => (inl e, s).

Definition bind {A B} (m : M A) (k : A -> M B) : M B :=
  fun s =>
    match m s with
    | (inl e, s') => (inl e, s')
    | (inr a, s') => k a s'
    end.

Declare Scope py_scope.
Delimit Scope py_scope with py.
Notation "x <- m ;; k" := (bind m (fun x => k))
  (at level 100, m at next level, right associativity) : py_scope.
Open Scope py_scope.

(** The state after one more provider has been constructed. *)
Definition after_construct (s : State) (p : VectorMemory) : State :=
  mkState (heap s) (constructed s ++ [p]).

(** Calling a provider class: the instance is recorded and returned. *)
Definition construct (p : VectorMemory) : M VectorMemory :=
  fun s => (inr p, after_construct s p).

(** ** The module *)

(** [supported_memory = ["json_file", "no_memory"]]: the global name is
    bound once, at import, to a fresh list object. *)
Definition supported_memory : ref := 1%positive.

Definition supported_memory_initial : list string := ["json_file"; "no_memory"].

Definition import_state : State :=
  mkState {[ supported_memory := supported_memory_initial ]} [].

Definition pinecone_message : string :=
  "The Pinecone memory backend has been rendered incompatible by work on "
  ++ "the memory system, and was removed. Whether support will be added back "
  ++ "in the future is subject to discussion, feel free to pitch in: "
  ++ "https://github.com/Significant-Gravitas/Auto-GPT/discussions/4280".

Definition redis_message : string :=
  "The Redis memory backend has been rendered incompatible by work on "
  ++ "the memory system, and has been removed temporarily.".

Definition weaviate_message : string :=
  "The Weaviate memory backend has been rendered incompatible by work on "
  ++ "the memory system, and was removed. Whether support will be added back "
  ++ "in the future is subject to discussion, feel free to pitch in: "
  ++ "https://github.com/Significant-Gravitas/Auto-GPT/discussions/4280".

Definition unknown_message (backend : string) : string :=
  "Unknown memory backend '" ++ backend ++ "'. Please check your config.".

(** Lines 43 to 97 of [get_memory]: [memory = None] followed by the
    [if]/[elif] chain.  The result is the value of the local [memory]
    when control leaves the chain without raising. *)
Definition get_memory_branches (config : Config) : M (option VectorMemory) :=
  let memory : option VectorMemory := None in
  if (memory_backend config =? "json_file")%string
     || (memory_backend config =? "local")%string then
    m <- construct (JSONFileMemory config) ;; ret (Some m)
  else if (memory_backend config =? "pinecone")%string then
    raise (NotImplementedError pinecone_message)
  else if (memory_backend config =? "redis")%string then
    raise (NotImplementedError redis_message)
  else if (memory_backend config =? "weaviate")%string then
    raise (NotImplementedError weaviate_message)
  else if (memory_backend config =? "no_memory")%string then
    m <- construct NoMemory ;; ret (Some m)
  else
    raise (ValueError (unknown_message (memory_backend config))).

(** Lines 98 to 101: [if memory is None: memory = JSONFileMemory(config)],
    then [return memory]. *)
Definition get_memory_default (config : Config)
    (memory : option VectorMemory) : M VectorMemory :=
  match memory with
  | None => construct (JSONFileMemory config)
  | Some m => ret m
  end.

Definition get_memory (config : Config) : M VectorMemory :=
  memory <- get_memory_branches config ;;
  get_memory_default config memory.

(** [get_supported_memory_backends] returns the global's list object
    itself, not a copy. *)
Definition get_supported_memory_backends : M ref := ret supported_memory.

(** ** What a caller can do with a list reference *)

(** [r.append(x)] *)
Definition list_append (r : ref) (x : string) : M unit :=
  fun s =>
    match heap s !! r with
    | Some l => (inr tt, mkState (<[ r := (l ++ [x])%list ]> (heap s)) (constructed s))
    | None => (inr tt, s)
    end.

(** The names of the three groups the selector distinguishes. *)
Definition active_names : list string := ["json_file"; "local"; "no_memory"].

Definition retired_names : list string := ["pinecone"; "redis"; "weaviate"].

(** ** The providers behind the factory

    The provider classes, the memory item and the relevance record are
    imported by the module ([.memory_item], [.providers.json_file],
    [.providers.no_memory]); their bodies are not part of it.  They are
    modelled here from the specification.  Embedding components and
    similarity scores are floating-point numbers in Python: the component
    type, the score type, the scorer and the comparison of scores are
    parameters of the model. *)

(** Modelled from the spec: the error kinds a provider operation can
    report (the classes of [.providers] are missing). *)
Inductive provider_error : Type := DimensionMismatch | NotFound.

Section ProviderModel.

Context {scalar score : Type}.
Context (similarity : list scalar -> list scalar -> score).
Context (score_leb : score -> score -> bool).

(** Modelled from the spec: [MemoryItem] of [.memory_item], one stored
    memory with its chunks, one embedding per chunk, and an optional
    summary with its embedding. *)
Record MemoryItem : Type := mkMemoryItem {
  rawContent : string;
  chunks : list string;
  chunkEmbeddings : list (list scalar);
  summary : option string;
  summaryEmbedding : option (list scalar);
  metadata : gmap string string
}.

(** Modelled from the spec: [MemoryItemRelevance] of [.memory_item].  The
    reference to the source item is the item together with the positional
    handle under which the store holds it. *)
Record MemoryItemRelevance : Type := mkRelevance {
  source : MemoryItem;
  handle : nat;
  chunkScores : list score;
  summaryScore : option score
}.

Definition score_max (a b : score) : score :=
  if score_leb a b then b else a.

Definition max_score (l : list score) : option score :=
  foldr (fun x acc =>
           Some match acc with None => x | Some y => score_max x y end)
        None l.

(** Modelled from the spec: [bestScore] is the maximum over the chunk
    scores and, if present, the summary score.  It is absent only for a
    record without any score, which the invariant
    [len(chunks) == len(chunkEmbeddings) > 0] excludes. *)
Definition bestScore (r : MemoryItemRelevance) : option score :=
  max_score (chunkScores r ++ option_list (summaryScore r))%list.

(** Comparison of best scores; an absent score is below every score. *)
Definition best_leb (a b : option score) : bool :=
  match a, b with
  | None, _ => true
  | Some _, None => false
  | Some x, Some y => score_leb x y
  end.

(** Modelled from the spec: the relevance scorer applied to one item,
    once per chunk embedding and once for the summary embedding. *)
Definition relevance (query : list scalar) (i : nat) (item : MemoryItem)
  : MemoryItemRelevance :=
  mkRelevance item i
    (map (similarity query) (chunkEmbeddings item))
    (option_map (similarity query) (summaryEmbedding item)).

(** Modelled from the spec: the rank of [getRelevant], descending best
    score, ties broken by insertion order (earlier-added item first). *)
Definition ranks_beforeb (a b : MemoryItemRelevance) : bool :=
  if best_leb (bestScore a) (bestScore b) then
    best_leb (bestScore b) (bestScore a) && (handle a <=? handle b)%nat
  else true.

Definition ranks_before (a b : MemoryItemRelevance) : Prop :=
  ranks_beforeb a b = true.

#[export] Instance ranks_before_dec a b : Decision (ranks_before a b) :=
  bool_eq_dec (ranks_beforeb a b) true.

Definition all_embeddings (item : MemoryItem) : list (list scalar) :=
  (chunkEmbeddings item ++ option_list (summaryEmbedding item))%list.

Definition has_dimension (D : nat) (item : MemoryItem) : bool :=
  forallb (fun e => (length e =? D)%nat) (all_embeddings item).

(** Modelled from the spec: the validity invariant of a memory item in a
    provider of dimensionality [D]. *)
Definition valid_item (D : nat) (item : MemoryItem) : bool :=
  (length (chunks item) =? length (chunkEmbeddings item))%nat
  && (0 <? length (chunkEmbeddings item))%nat
  && has_dimension D item.

(** The backing medium: the file at a path holds a sequence of items. *)
Definition Disk : Type := gmap string (list MemoryItem).

(** Modelled from the spec: [FileBackedMemoryStore], the state of a
    [JSONFileMemory] instance: the configured path, the dimensionality
    fixed at construction and the in-memory sequence. *)
Record FileStore : Type := mkFileStore {
  store_path : string;
  store_dim : nat;
  store_items : list MemoryItem
}.

(** Modelled from the spec: a provider is one of the two variants; the
    null store keeps nothing, not even a dimensionality ([NoMemory()] is
    built without a configuration). *)
Inductive Provider : Type :=
| FileBacked (st : FileStore)
| Null.

Definition result (A : Type) : Type := (provider_error + A)%type.

(** Modelled from the spec: construction of the file-backed store.  An
    existing file is read and validated against the declared
    dimensionality; a missing file gives the empty sequence. *)
Definition open_store (config : Config) (disk : Disk) : result FileStore :=
  match disk !! memory_file config with
  | Some its =>
      if forallb (has_dimension (embedding_dim config)) its then
        inr (mkFileStore (memory_file config) (embedding_dim config) its)
      else inl DimensionMismatch
  | None => inr (mkFileStore (memory_file config) (embedding_dim config) [])
  end.

(** The provider state behind an instance returned by [get_memory]. *)
Definition instantiate (m : VectorMemory) (disk : Disk) : result Provider :=
  match m with
  | JSONFileMemory config =>
      match open_store config disk with
      | inr st => inr (FileBacked st)
      | inl e => inl e
      end
  | NoMemory => inr Null
  end.

(** Modelled from the spec: [add].  The file-backed store checks every
    embedding of the item, appends, and rewrites the whole file; the null
    store returns a synthetic handle and stores nothing. *)
Definition add (p : Provider) (disk : Disk) (item : MemoryItem)
  : result nat * Provider * Disk :=
  match p with
  | FileBacked st =>
      if has_dimension (store_dim st) item then
        let items' := (store_items st ++ [item])%list in
        (inr (length (store_items st)),
         FileBacked (mkFileStore (store_path st) (store_dim st) items'),
         <[ store_path st := items' ]> disk)
      else (inl DimensionMismatch, p, disk)
  | Null => (inr 0, Null, disk)
  end.

(** Modelled from the spec: [get]. *)
Definition get (p : Provider) (index : nat) : result MemoryItem :=
  match p with
  | FileBacked st =>
      match store_items st !! index with
      | Some item => inr item
      | None => inl NotFound
      end
  | Null => inl NotFound
  end.

(** Modelled from the spec: [count]. *)
Definition count (p : Provider) : nat :=
  match p with
  | FileBacked st => length (store_items st)
  | Null => 0
  end.

(** Modelled from the spec: [clear]. *)
Definition clear (p : Provider) (disk : Disk) : Provider * Disk :=
  match p with
  | FileBacked st =>
      (FileBacked (mkFileStore (store_path st) (store_dim st) []),
       <[ store_path st := [] ]> disk)
  | Null => (Null, disk)
  end.

(** All items of a store scored against a query, in insertion order. *)
Definition relevances (query : list scalar) (items : list MemoryItem)
  : list MemoryItemRelevance :=
  imap (relevance query) items.

(** Modelled from the spec: [getRelevant]. *)
Definition getRelevant (p : Provider) (query : list scalar) (k : Z)
  : result (list MemoryItemRelevance) :=
  match p with
  | FileBacked st =>
      if negb (length query =? store_dim st)%nat then inl DimensionMismatch
      else if (k <=? 0)%Z then inr []
      else inr (take (Z.to_nat k)
                  (merge_sort ranks_before
                     (relevances query (store_items st))))
  | Null => inr []
  end.

(** The dimensionality of a provider, when it has one. *)
Definition provider_dim (p : Provider) : option nat :=
  match p with
  | FileBacked st => Some (store_dim st)
  | Null => None
  end.

(** One call of the caller-facing interface, and what it returns. *)
Inductive call : Type :=
| CallAdd (item : MemoryItem)
| CallGet (index : nat)
| CallGetRelevant (query : list scalar) (k : Z)
| CallClear
| CallCount.

Inductive reply : Type :=
| ReplyAdd (r : result nat)
| ReplyGet (r : result MemoryItem)
| ReplyGetRelevant (r : result (list MemoryItemRelevance))
| ReplyClear
| ReplyCount (n : nat).

Definition perform (c : call) (p : Provider) (disk : Disk)
  : reply * Provider * Disk :=
  match c with
  | CallAdd item =>
      let '(r, p', disk') := add p disk item in (ReplyAdd r, p', disk')
  | CallGet index => (ReplyGet (get p index), p, disk)
  | CallGetRelevant query k => (ReplyGetRelevant (getRelevant p query k), p, disk)
  | CallClear => let '(p', disk') := clear p disk in (ReplyClear, p', disk')
  | CallCount => (ReplyCount (count p), p, disk)
  end.

(** A sequence of calls, the replies collected in order. *)
Fixpoint perform_all (cs : list call) (p : Provider) (disk : Disk)
  : list reply * Provider * Disk :=
  match cs with
  | [] => ([], p, disk)
  | c :: cs' =>
      let '(r, p', disk') := perform c p disk in
      let '(rs, p'', disk'') := perform_all cs' p' disk' in
      (r :: rs, p'', disk'')
  end.

End ProviderModel.

(** ** Programs over the module *)

(** The contents of a list object; a caller iterating over the list it
    was handed reads exactly this. *)
Definition list_contents (r : ref) : M (list string) :=
  fun s => (inr (default [] (heap s !! r)), s).

(** What a caller sees when it asks for the supported backends. *)
Definition supported_backends_now : M (list string) :=
  r <- get_supported_memory_backends ;;
  list_contents r.

(** A caller that appends to the list it was handed and asks again:
    [l = get_supported_memory_backends(); l.append(x);
     get_supported_memory_backends()]. *)
Definition append_then_ask (x : string) : M (list string) :=
  r <- get_supported_memory_backends ;;
  _ <- list_append r x ;;
  supported_backends_now.

(** The operations the module itself offers. *)
Inductive module_call : Type :=
| GetMemory (config : Config)
| GetSupportedMemoryBackends.

Definition module_step (s : State) (c : module_call) : State :=
  match c with
  | GetMemory config => snd (get_memory config s)
  | GetSupportedMemoryBackends => snd (get_supported_memory_backends s)
  end.

Definition module_run (cs : list module_call) (s : State) : State :=
  foldl module_step s cs.

(** [get_memory] returns an instance instead of raising. *)
Definition returns_provider (config : Config) (s : State) : Prop :=
  exists p s', get_memory config s = (inr p, s').

(** The reply the specification prescribes for a call on the null store. *)
Definition null_reply {scalar score : Type}
    (c : call (scalar := scalar)) (r : reply (scalar := scalar) (score := score))
  : Prop :=
  match c, r with
  | CallAdd _, ReplyAdd (inr _) => True
  | CallGet _, ReplyGet (inl NotFound) => True
  | CallGetRelevant _ _, ReplyGetRelevant (inr []) => True
  | CallClear, ReplyClear => True
  | CallCount, ReplyCount 0 => True
  | _, _ => False
  end.

(** For vectors of unit length the cosine similarity is the dot product;
    it serves to run the model on integer vectors. *)
Fixpoint dot (a b : list Z) : Z :=
  match a, b with
  | x :: a', y :: b' => (x * y + dot a' b')%Z
  | _, _ => 0%Z
  end.

(** An item with a single chunk and no summary. *)
Definition single_chunk (text : string) (e : list Z) : MemoryItem (scalar := Z) :=
  mkMemoryItem text [text] [e] None None ∅.

(** A message names a value when the value occurs in it. *)
Definition mentions (msg part : string) : Prop :=
  exists pre post, msg = pre ++ part ++ post.

Fixpoint contains (part msg : string) : bool :=
  String.prefix part msg
  || match msg with
     | EmptyString => false
     | String _ msg' => contains part msg'
     end.

(** A file-backed store of dimensionality 3 holding three items, the
    first and the third with the same embedding. *)
Definition sample_store : FileStore (scalar := Z) :=
  mkFileStore "memory.json" 3
    [ single_chunk "alpha" [1; 0; 0]%Z;
      single_chunk "beta" [0; 1; 0]%Z;
      single_chunk "gamma" [1; 0; 0]%Z ].

(** The handles and best scores of a ranking, for reading off a result. *)
Definition handles_and_scores
    (r : result (list (MemoryItemRelevance (scalar := Z) (score := Z))))
  : option (list (nat * option Z)) :=
  match r with
  | inr rs => Some (map (fun x => (handle x, bestScore Z.leb x)) rs)
  | inl _ => None
  end.

(** ** Further vocabulary for the selector *)

(** The class of an instance, without the arguments it was built from. *)
Inductive provider_class : Type := JSONFileMemoryClass | NoMemoryClass.

Definition class_of (p : VectorMemory) : provider_class :=
  match p with
  | JSONFileMemory _ => JSONFileMemoryClass
  | NoMemory => NoMemoryClass
  end.

(** What a call of [get_memory] amounts to once the arguments of the
    instance are forgotten: the exception, or the class instantiated. *)
Definition outcome_kind (r : exn + VectorMemory) : exn + provider_class :=
  match r with
  | inl e => inl e
  | inr p => inr (class_of p)
  end.

(** The instances a sequence of calls of the module is expected to
    build, read off the backend names alone. *)
Definition instance_for (config : Config) : list VectorMemory :=
  if bool_decide (memory_backend config ∈ ["json_file"; "local"]) then
    [JSONFileMemory config]
  else if bool_decide (memory_backend config = "no_memory") then [NoMemory]
  else [].

Definition instances_of (cs : list module_call) : list VectorMemory :=
  flat_map (fun c => match c with
                     | GetMemory config => instance_for config
                     | GetSupportedMemoryBackends => []
                     end) cs.

(** ** The helper of [tests/test_image_gen.py]

    Python strings are sequences of code points; a character of a Rocq
    string stands for the code point of the same number, so the strings
    covered are those of code points below 256. *)

(** [str.isspace] on one character: the code points 9 to 13, 28 to 32,
    133 and 160 are the white space below 256. *)
Definition is_space (c : ascii) : bool :=
  let n := N_of_ascii c in
  ((9 <=? n) && (n <=? 13) || (28 <=? n) && (n <=? 32)
   || (n =? 133) || (n =? 160))%N.

Fixpoint lstrip (s : string) : string :=
  match s with
  | EmptyString => EmptyString
  | String c s' => if is_space c then lstrip s' else s
  end.

Definition string_empty (s : string) : bool :=
  match s with
  | EmptyString => true
  | String _ _ => false
  end.

Fixpoint rstrip (s : string) : string :=
  match s with
  | EmptyString => EmptyString
  | String c s' =>
      let r := rstrip s' in
      if is_space c && string_empty r then EmptyString else String c r
  end.

(** [s.strip()] *)
Definition strip (s : string) : string := rstrip (lstrip s).

Definition cons_head (c : ascii) (parts : list string) : list string :=
  match parts with
  | h :: t => String c h :: t
  | [] => [String c EmptyString]
  end.

(** [s.split(sep, maxsplit)] for a separator of one character: at most
    [maxsplit] splits are made, from the left. *)
Fixpoint split_char (sep : ascii) (s : string) (maxsplit : nat) : list string :=
  match s with
  | EmptyString => [EmptyString]
  | String c s' =>
      match maxsplit with
      | 0 => [s]
      | S n =>
          if Ascii.eqb c sep then EmptyString :: split_char sep s' n
          else cons_head c (split_char sep s' maxsplit)
      end
  end.

(** A [pathlib.Path] is represented by the string it was built from. *)
Inductive PurePath : Type := Path (arg : string).

(** Indexing a list out of range. *)
Inductive index_exn : Type := IndexError.

(** [lst(txt)]: [Path(txt.split(":", 1)[1].strip())]. *)
Definition lst (txt : string) : index_exn + PurePath :=
  match split_char ":" txt 1 !! 1 with
  | Some part => inr (Path (strip part))
  | None => inl IndexError
  end.

Fixpoint has_char (c : ascii) (s : string) : bool :=
  match s with
  | EmptyString => false
  | String d s' => Ascii.eqb d c || has_char c s'
  end.

Fixpoint all_space (s : string) : bool :=
  match s with
  | EmptyString => true
  | String c s' => is_space c && all_space s'
  end.

Definition starts_with_space (s : string) : bool :=
  match s with
  | EmptyString => false
  | String c _ => is_space c
  end.

Fixpoint ends_with_space (s : string) : bool :=
  match s with
  | EmptyString => false
  | String c EmptyString => is_space c
  | String _ s' => ends_with_space s'
  end.

(** * Properties of the selector *)

Ltac backend_cases config :=
  unfold get_memory, get_memory_branches, get_memory_default, bind, construct,
    raise, ret;
  destruct (String.eqb_spec (memory_backend config) "json_file");
  destruct (String.eqb_spec (memory_backend config) "local");
  destruct (String.eqb_spec (memory_backend config) "pinecone");
  destruct (String.eqb_spec (memory_backend config) "redis");
  destruct (String.eqb_spec (memory_backend config) "weaviate");
  destruct (String.eqb_spec (memory_backend config) "no_memory");
  cbn [orb]; try congruence.

Lemma get_memory_json_file config s :
  memory_backend config = "json_file" \/ memory_backend config = "local" ->
  get_memory config s
  = (inr (JSONFileMemory config), after_construct s (JSONFileMemory config)).
Proof. intros [E | E]; backend_cases config; reflexivity. Qed.

Lemma get_memory_no_memory config s :
  memory_backend config = "no_memory" ->
  get_memory config s = (inr NoMemory, after_construct s NoMemory).
Proof. intros E; backend_cases config; reflexivity. Qed.

Lemma get_memory_pinecone config s :
  memory_backend config = "pinecone" ->
  get_memory config s = (inl (NotImplementedError pinecone_message), s).
Proof. intros E; backend_cases config; reflexivity. Qed.

Lemma get_memory_redis config s :
  memory_backend config = "redis" ->
  get_memory config s = (inl (NotImplementedError redis_message), s).
Proof. intros E; backend_cases config; reflexivity. Qed.

Lemma get_memory_weaviate config s :
  memory_backend config = "weaviate" ->
  get_memory config s = (inl (NotImplementedError weaviate_message), s).
Proof. intros E; backend_cases config; reflexivity. Qed.

Lemma get_memory_unknown config s :
  memory_backend config ∉ active_names ->
  memory_backend config ∉ retired_names ->
  get_memory config s
  = (inl (ValueError (unknown_message (memory_backend config))), s).
Proof.
  unfold active_names, retired_names.
  rewrite !not_elem_of_cons. intros Ha Hr.
  backend_cases config; try reflexivity; tauto.
Qed.

Lemma prefix_split (part msg : string) :
  String.prefix part msg = true -> exists post, msg = part ++ post.
Proof.
  revert msg. induction part as [|a part IH]; intros msg H.
  - exists msg. reflexivity.
  - destruct msg as [|b msg]; cbn in H; [discriminate|].
    destruct (Ascii.ascii_dec a b) as [->|]; [|discriminate].
    destruct (IH _ H) as [post ->]. exists post. reflexivity.
Qed.

Lemma contains_mentions (part msg : string) :
  contains part msg = true -> mentions msg part.
Proof.
  induction msg as [|c msg IH]; cbn [contains]; intros H;
    apply orb_true_iff in H as [H | H]; try discriminate.
  - apply prefix_split in H as [post ->]. exists "", post. reflexivity.
  - apply prefix_split in H as [post ->]. exists "", post. reflexivity.
  - destruct (IH H) as (pre & post & ->). exists (String c pre), post.
    reflexivity.
Qed.

Lemma retired_cases (b : string) :
  b ∈ retired_names -> b = "pinecone" \/ b = "redis" \/ b = "weaviate".
Proof.
  unfold retired_names. rewrite !elem_of_cons, elem_of_nil. tauto.
Qed.

Lemma active_cases (b : string) :
  b ∈ active_names <-> b = "json_file" \/ b = "local" \/ b = "no_memory".
Proof.
  unfold active_names. rewrite !elem_of_cons, elem_of_nil. tauto.
Qed.

(** C1: for an active backend name, [get_memory] constructs exactly one
    provider and returns that instance: the file-backed provider for
    ["json_file"] and ["local"], the null provider for ["no_memory"]. *)
Theorem get_memory_active (config : Config) (s : State) :
  memory_backend config ∈ active_names ->
  exists p,
    get_memory config s = (inr p, after_construct s p)
    /\ (memory_backend config = "json_file" \/ memory_backend config = "local"
        -> p = JSONFileMemory config)
    /\ (memory_backend config = "no_memory" -> p = NoMemory).
Proof.
  intros H. apply active_cases in H as [E | [E | E]].
  - exists (JSONFileMemory config). split; [|split].
    + apply get_memory_json_file; auto.
    + reflexivity.
    + congruence.
  - exists (JSONFileMemory config). split; [|split].
    + apply get_memory_json_file; auto.
    + reflexivity.
    + congruence.
  - exists NoMemory. split; [|split].
    + apply get_memory_no_memory; auto.
    + intros [E' | E']; congruence.
    + reflexivity.
Qed.

Lemma get_memory_active_witness :
  "local" ∈ active_names
  /\ exists p,
       get_memory (mkConfig "local" "memory.json" 3) import_state
       = (inr p, after_construct import_state p)
       /\ ("local" = "json_file" \/ "local" = "local"
           -> p = JSONFileMemory (mkConfig "local" "memory.json" 3))
       /\ ("local" = "no_memory" -> p = NoMemory).
Proof.
  assert (H : "local" ∈ active_names) by (unfold active_names; repeat constructor).
  split; [exact H|].
  exact (get_memory_active (mkConfig "local" "memory.json" 3) import_state H).
Defined.

(** C2: for a retired backend name, [get_memory] raises the exception that
    stands for [BackendRetired], with a message explaining the removal,
    and leaves the state as it was: no provider has been constructed, so
    the file system, reachable only through a provider, is untouched. *)
Theorem get_memory_retired (config : Config) (s : State) :
  memory_backend config ∈ retired_names ->
  exists e,
    get_memory config s = (inl e, s)
    /\ error_kind e = BackendRetired
    /\ mentions (exn_message e) "memory backend has been rendered incompatible"
    /\ constructed (snd (get_memory config s)) = constructed s.
Proof.
  intros H. apply retired_cases in H as [E | [E | E]].
  - exists (NotImplementedError pinecone_message).
    rewrite (get_memory_pinecone _ _ E). repeat split.
    apply contains_mentions. vm_compute. reflexivity.
  - exists (NotImplementedError redis_message).
    rewrite (get_memory_redis _ _ E). repeat split.
    apply contains_mentions. vm_compute. reflexivity.
  - exists (NotImplementedError weaviate_message).
    rewrite (get_memory_weaviate _ _ E). repeat split.
    apply contains_mentions. vm_compute. reflexivity.
Qed.

Lemma get_memory_retired_witness :
  "redis" ∈ retired_names
  /\ exists e,
       get_memory (mkConfig "redis" "memory.json" 3) import_state
       = (inl e, import_state)
       /\ error_kind e = BackendRetired
       /\ mentions (exn_message e)
            "memory backend has been rendered incompatible"
       /\ constructed
            (snd (get_memory (mkConfig "redis" "memory.json" 3) import_state))
          = constructed import_state.
Proof.
  assert (H : "redis" ∈ retired_names) by (unfold retired_names; repeat constructor).
  split; [exact H|].
  exact (get_memory_retired (mkConfig "redis" "memory.json" 3) import_state H).
Defined.

(** C3: for a name that is neither active nor retired, [get_memory] raises
    the exception that stands for [UnknownBackend]; its message contains
    the offending name, and no provider is constructed. *)
Theorem get_memory_unrecognized (config : Config) (s : State) :
  memory_backend config ∉ active_names ->
  memory_backend config ∉ retired_names ->
  exists e,
    get_memory config s = (inl e, s)
    /\ error_kind e = UnknownBackend
    /\ mentions (exn_message e) (memory_backend config)
    /\ constructed (snd (get_memory config s)) = constructed s.
Proof.
  intros Ha Hr.
  exists (ValueError (unknown_message (memory_backend config))).
  rewrite (get_memory_unknown _ _ Ha Hr). repeat split.
  exists "Unknown memory backend '", "'. Please check your config.".
  reflexivity.
Qed.

Lemma get_memory_unrecognized_witness :
  ("milvus" ∉ active_names)
  /\ ("milvus" ∉ retired_names)
  /\ exists e,
       get_memory (mkConfig "milvus" "memory.json" 3) import_state
       = (inl e, import_state)
       /\ error_kind e = UnknownBackend
       /\ mentions (exn_message e) "milvus"
       /\ constructed
            (snd (get_memory (mkConfig "milvus" "memory.json" 3) import_state))
          = constructed import_state.
Proof.
  assert (Ha : "milvus" ∉ active_names).
  { intros H. apply active_cases in H as [E | [E | E]]; discriminate E. }
  assert (Hr : "milvus" ∉ retired_names).
  { intros H. apply retired_cases in H as [E | [E | E]]; discriminate E. }
  split; [exact Ha|]. split; [exact Hr|].
  exact (get_memory_unrecognized (mkConfig "milvus" "memory.json" 3)
           import_state Ha Hr).
Defined.

Lemma get_memory_raises (config : Config) (s : State) :
  memory_backend config ∉ active_names ->
  exists e, get_memory config s = (inl e, s).
Proof.
  unfold active_names. rewrite !not_elem_of_cons. intros Ha.
  backend_cases config; try tauto; eexists; reflexivity.
Qed.

Lemma get_memory_heap (config : Config) (s : State) :
  heap (snd (get_memory config s)) = heap s.
Proof. backend_cases config; reflexivity. Qed.

Lemma active_names_dec (b : string) : {b ∈ active_names} + {b ∉ active_names}.
Proof. exact (decide (b ∈ active_names)). Qed.

(** C4: the default path, taken when the branches left no instance,
    constructs the file-backed provider; no backend name leads there: the
    branches never finish without an instance, so [get_memory] either
    raises or returns the provider an explicit branch assigned. *)
Theorem get_memory_default_unreachable (config : Config) (s : State) :
  get_memory_default config None s
  = (inr (JSONFileMemory config), after_construct s (JSONFileMemory config))
  /\ fst (get_memory_branches config s) <> inr None
  /\ ((exists e, get_memory config s = (inl e, s))
      \/ (exists p s',
            get_memory_branches config s = (inr (Some p), s')
            /\ get_memory config s = (inr p, s'))).
Proof.
  split; [reflexivity|]. split.
  - backend_cases config; cbn; discriminate.
  - backend_cases config;
      first [ left; eexists; reflexivity
            | right; eexists _, _; split; reflexivity ].
Qed.

(** C5: [get_memory] returns a provider exactly for the names
    ["json_file"], ["local"] and ["no_memory"]; ["local"] is not in the
    list [get_supported_memory_backends] hands out, every name of which is
    accepted, so the accepted names strictly include the advertised
    ones. *)
Theorem get_memory_accepts_exactly (config : Config) (s : State) :
  (returns_provider config s <-> memory_backend config ∈ active_names)
  /\ fst (supported_backends_now import_state) = inr supported_memory_initial
  /\ "local" ∈ active_names
  /\ ("local" ∉ supported_memory_initial)
  /\ (forall b : string, b ∈ supported_memory_initial -> b ∈ active_names).
Proof.
  split; [split|].
  - intros (p & s' & E).
    destruct (active_names_dec (memory_backend config)) as [H | H]; [exact H|].
    destruct (get_memory_raises config s H) as [e E']. congruence.
  - intros H. apply active_cases in H as [E | [E | E]].
    + eexists _, _. apply get_memory_json_file. left. exact E.
    + eexists _, _. apply get_memory_json_file. right. exact E.
    + eexists _, _. apply get_memory_no_memory. exact E.
  - unfold supported_memory_initial, active_names.
    split; [reflexivity|]. split; [repeat constructor|]. split.
    + rewrite !not_elem_of_cons. repeat split; try discriminate.
      apply not_elem_of_nil.
    + intros b. rewrite !elem_of_cons, !elem_of_nil. tauto.
Qed.

Lemma module_step_heap (s : State) (c : module_call) :
  heap (module_step s c) = heap s.
Proof. destruct c; cbn; [apply get_memory_heap | reflexivity]. Qed.

Lemma module_run_heap (cs : list module_call) (s : State) :
  heap (module_run cs s) = heap s.
Proof.
  unfold module_run. revert s.
  induction cs as [|c cs IH]; intros s; cbn; [reflexivity|].
  rewrite IH. apply module_step_heap.
Qed.

(** C10, as stated, fails: the accessor hands out the module's own list
    object, so a caller that appends to it changes what the accessor
    returns from then on. *)
Lemma supported_backends_mutable_by_caller :
  fst (append_then_ask "milvus" import_state)
  = inr ["json_file"; "no_memory"; "milvus"]
  /\ fst (append_then_ask "milvus" import_state) <> inr supported_memory_initial.
Proof. split; [vm_compute; reflexivity | vm_compute; discriminate]. Qed.

(** C10, amended: the list is [["json_file"; "no_memory"]] at import, no
    operation of the module changes any list object, and the accessor
    always returns the same reference; after any sequence of calls of the
    module it therefore still yields [["json_file"; "no_memory"]]. *)
Theorem supported_memory_unchanged_by_module
    (cs : list module_call) (s : State) :
  fst (supported_backends_now import_state) = inr ["json_file"; "no_memory"]
  /\ heap (module_run cs s) = heap s
  /\ fst (get_supported_memory_backends (module_run cs s)) = inr supported_memory
  /\ fst (supported_backends_now (module_run cs import_state))
     = inr ["json_file"; "no_memory"].
Proof.
  split; [reflexivity|]. split; [apply module_run_heap|].
  split; [reflexivity|].
  unfold supported_backends_now, get_supported_memory_backends, bind, ret,
    list_contents. cbn.
  rewrite module_run_heap. reflexivity.
Qed.

(** * Properties of the providers *)

Lemma StronglySorted_lookup {A} (R : relation A) (l : list A) (i j : nat) (a b : A) :
  StronglySorted R l -> i < j -> l !! i = Some a -> l !! j = Some b -> R a b.
Proof.
  intros Hs. revert i j. induction Hs as [|x l Hs IH Hx]; intros i j Hij Hi Hj.
  - discriminate.
  - destruct j as [|j]; [lia|]. cbn in Hj. destruct i as [|i]; cbn in Hi.
    + injection Hi as <-. rewrite Forall_forall in Hx. apply Hx.
      eapply list_elem_of_lookup_2. exact Hj.
    + apply (IH i j); [lia | assumption | assumption].
Qed.

Section ProviderProperties.

Context {scalar score : Type}.
Context (similarity : list scalar -> list scalar -> score).
Context (score_leb : score -> score -> bool).

Hypothesis score_leb_total :
  forall a b, score_leb a b = true \/ score_leb b a = true.
Hypothesis score_leb_trans :
  forall a b c, score_leb a b = true -> score_leb b c = true -> score_leb a c = true.

Local Abbreviation ranked := (ranks_before (scalar := scalar) score_leb).

Lemma best_leb_total (a b : option score) :
  best_leb score_leb a b = true \/ best_leb score_leb b a = true.
Proof. destruct a, b; cbn; auto. Qed.

Lemma best_leb_trans (a b c : option score) :
  best_leb score_leb a b = true -> best_leb score_leb b c = true ->
  best_leb score_leb a c = true.
Proof. destruct a, b, c; cbn; eauto; discriminate. Qed.

Lemma ranks_before_total : Total ranked.
Proof.
  intros a b. unfold ranks_before, ranks_beforeb.
  destruct (best_leb score_leb (bestScore score_leb a) (bestScore score_leb b));
    destruct (best_leb score_leb (bestScore score_leb b) (bestScore score_leb a));
    cbn; auto.
  destruct (Nat.leb_spec (handle a) (handle b));
    destruct (Nat.leb_spec (handle b) (handle a)); auto; lia.
Qed.

Lemma ranks_before_trans : Transitive ranked.
Proof.
  intros a b c. unfold ranks_before, ranks_beforeb.
  set (x := bestScore score_leb a). set (y := bestScore score_leb b).
  set (z := bestScore score_leb c).
  destruct (best_leb_total x y), (best_leb_total y z), (best_leb_total x z);
    destruct (best_leb score_leb x y) eqn:Exy;
    destruct (best_leb score_leb y x) eqn:Eyx;
    destruct (best_leb score_leb y z) eqn:Eyz;
    destruct (best_leb score_leb z y) eqn:Ezy;
    destruct (best_leb score_leb x z) eqn:Exz;
    destruct (best_leb score_leb z x) eqn:Ezx;
    cbn; intros Hab Hbc; try reflexivity; try congruence;
    try (pose proof (best_leb_trans _ _ _ Exy Eyz); congruence);
    try (pose proof (best_leb_trans _ _ _ Ezy Eyx); congruence);
    try (pose proof (best_leb_trans _ _ _ Exz Ezy); congruence);
    try (pose proof (best_leb_trans _ _ _ Eyx Exz); congruence).
  all: apply Nat.leb_le in Hab, Hbc; apply Nat.leb_le; lia.
Qed.

Lemma relevances_handles (query : list scalar) (items : list MemoryItem) :
  handle <$> relevances similarity query items = seq 0 (length items).
Proof.
  unfold relevances. rewrite fmap_imap.
  rewrite (imap_ext _ (fun j _ => id j)) by reflexivity.
  rewrite imap_seq_0. apply list_fmap_id.
Qed.

Lemma ranking_sorted (query : list scalar) (items : list MemoryItem) :
  StronglySorted ranked
    (merge_sort ranked (relevances similarity query items)).
Proof.
  apply (@StronglySorted_merge_sort _ _ _ ranks_before_trans ranks_before_total).
Qed.

Lemma ranking_handles_NoDup (query : list scalar) (items : list MemoryItem) :
  NoDup (handle <$>
           merge_sort ranked (relevances similarity query items)).
Proof.
  rewrite merge_sort_Permutation, relevances_handles. apply NoDup_seq.
Qed.

Local Abbreviation null := (Null (scalar := scalar)).

Lemma has_dimension_all (D : nat) (item : MemoryItem) (e : list scalar) :
  has_dimension D item = true -> e ∈ all_embeddings item -> length e = D.
Proof.
  unfold has_dimension. rewrite forallb_forall. intros H He.
  apply Nat.eqb_eq, H, list_elem_of_In, He.
Qed.

Lemma max_score_cons (x : score) (l : list score) :
  is_Some (max_score score_leb (x :: l)).
Proof. cbn. eexists. reflexivity. Qed.

(** A valid item has at least one chunk embedding, so its relevance has a
    best score. *)
Lemma bestScore_defined (D i : nat) (query : list scalar) (item : MemoryItem) :
  valid_item D item = true ->
  is_Some (bestScore score_leb (relevance similarity query i item)).
Proof.
  unfold valid_item. rewrite !andb_true_iff. intros [[_ Hpos] _].
  apply Nat.ltb_lt in Hpos. unfold bestScore, relevance. cbn.
  destruct (chunkEmbeddings item) as [|e es]; [cbn in Hpos; lia|].
  cbn [map app]. apply max_score_cons.
Qed.

Lemma perform_null (c : call) (disk : Disk) :
  exists r, perform similarity score_leb c null disk = (r, null, disk)
            /\ null_reply c r.
Proof.
  destruct c; cbn; eexists; (split; [reflexivity|]); exact I.
Qed.

Lemma perform_all_null (cs : list call) (disk : Disk) :
  exists rs, perform_all similarity score_leb cs null disk = (rs, null, disk)
             /\ Forall2 null_reply cs rs.
Proof.
  induction cs as [|c cs IH].
  - exists []. split; [reflexivity | constructor].
  - destruct (perform_null c disk) as (r & Er & Hr).
    destruct IH as (rs & Ers & Hrs).
    exists (r :: rs). cbn [perform_all]. rewrite Er, Ers.
    split; [reflexivity | constructor; assumption].
Qed.

(** C6: the name ["no_memory"] selects the null provider; on it [add]
    returns a handle and [count] stays 0, [getRelevant] returns the empty
    sequence, [get] fails with [NotFound], [clear] changes nothing, and
    after every sequence of calls the provider and the backing medium
    are what they were. *)
Theorem no_memory_discards (config : Config) (s : State) :
  memory_backend config = "no_memory" ->
  fst (get_memory config s) = inr NoMemory
  /\ (forall disk : Disk, instantiate NoMemory disk = inr null)
  /\ (forall (disk : Disk) (item : MemoryItem),
        (exists h, add null disk item = (inr h, null, disk))
        /\ count (snd (fst (add null disk item))) = 0)
  /\ (forall (query : list scalar) (k : Z),
        getRelevant similarity score_leb null query k = inr [])
  /\ (forall index : nat, get null index = inl NotFound)
  /\ (forall disk : Disk, clear null disk = (null, disk))
  /\ (forall (cs : list call) (disk : Disk),
        exists rs,
          perform_all similarity score_leb cs null disk = (rs, null, disk)
          /\ Forall2 null_reply cs rs).
Proof.
  intros E. rewrite (get_memory_no_memory _ _ E).
  repeat split; try reflexivity.
  - eexists; reflexivity.
  - apply perform_all_null.
Qed.

(** C8: in a provider of dimensionality [D], [add] of an item one of whose
    embeddings has a length other than [D] fails with
    [DimensionMismatch]; the provider and its file are unchanged, and
    [count] reports what it reported before. *)
Theorem add_dimension_mismatch
    (p : Provider) (disk : Disk) (item : MemoryItem) (D : nat) (e : list scalar) :
  provider_dim p = Some D ->
  e ∈ all_embeddings item ->
  length e <> D ->
  add p disk item = (inl DimensionMismatch, p, disk)
  /\ count (snd (fst (add p disk item))) = count p.
Proof.
  intros Hd He Hl. destruct p as [st|]; [|discriminate].
  cbn in Hd. injection Hd as <-. cbn [add].
  destruct (has_dimension (store_dim st) item) eqn:Hdim.
  - exfalso. apply Hl. eapply has_dimension_all; eassumption.
  - split; reflexivity.
Qed.

(** C7: a query whose length differs from the provider's dimensionality
    fails with [DimensionMismatch]; otherwise [getRelevant] returns the
    [k] best relevances of the stored items, at most [k] of them and none
    for [k <= 0], in non-increasing order of [bestScore], an item added
    earlier coming first among items of equal [bestScore]. *)
Theorem getRelevant_ranked (p : Provider) (query : list scalar) (k : Z) :
  (forall D, provider_dim p = Some D -> length query <> D ->
     getRelevant similarity score_leb p query k = inl DimensionMismatch)
  /\ ((forall D, provider_dim p = Some D -> length query = D) ->
      exists rs,
        getRelevant similarity score_leb p query k = inr rs
        /\ length rs = Nat.min (Z.to_nat k) (count p)
        /\ length rs <= Z.to_nat k
        /\ ((k <= 0)%Z -> rs = [])
        /\ (forall i j a b, i < j -> rs !! i = Some a -> rs !! j = Some b ->
              best_leb score_leb (bestScore score_leb b) (bestScore score_leb a) = true
              /\ (best_leb score_leb (bestScore score_leb a) (bestScore score_leb b) = true
                  -> handle a < handle b))
        /\ (forall r, r ∈ rs ->
              exists item, get p (handle r) = inr item
                           /\ r = relevance similarity query (handle r) item)
        /\ (forall h item a, get p h = inr item -> a ∈ rs ->
              relevance similarity query h item ∉ rs ->
              ranked a (relevance similarity query h item))).
Proof.
  split.
  - intros D Hd Hl. destruct p as [st|]; [|discriminate].
    cbn in Hd. injection Hd as <-. cbn [getRelevant].
    destruct (Nat.eqb_spec (length query) (store_dim st)); [contradiction|].
    reflexivity.
  - intros Hd. destruct p as [st|].
    2:{ exists []. cbn. repeat split; try lia; try discriminate;
          intros; match goal with H : _ ∈ [] |- _ => apply elem_of_nil in H as [] end. }
    specialize (Hd _ eq_refl). cbn [getRelevant count get].
    rewrite Hd, Nat.eqb_refl. cbn [negb].
    destruct (Z.leb_spec k 0) as [Hk | Hk].
    { exists []. cbn. replace (Z.to_nat k) with 0 by lia.
      repeat split; try lia; try discriminate;
        intros; match goal with H : _ ∈ [] |- _ => apply elem_of_nil in H as [] end. }
    set (items := store_items st).
    set (sorted := merge_sort ranked (relevances similarity query items)).
    pose proof (ranking_sorted query items) as Hs. fold sorted in Hs.
    pose proof (ranking_handles_NoDup query items) as Hn. fold sorted in Hn.
    assert (Hp : sorted ≡ₚ relevances similarity query items)
      by apply merge_sort_Permutation.
    assert (Hlen : length sorted = length items).
    { rewrite Hp. apply length_imap. }
    exists (take (Z.to_nat k) sorted).
    split; [reflexivity|]. split; [rewrite length_take; lia|].
    split; [rewrite length_take; lia|]. split; [lia|]. split; [|split].
    + intros i j a b Hij Hi Hj.
      apply lookup_take_Some in Hi as [Hi _]. apply lookup_take_Some in Hj as [Hj _].
      pose proof (StronglySorted_lookup _ _ _ _ _ _ Hs Hij Hi Hj) as Hab.
      unfold ranks_before, ranks_beforeb in Hab.
      assert (Hne : handle a <> handle b).
      { intros Heq.
        assert (i = j); [|lia].
        eapply (NoDup_lookup _ i j (handle a) Hn);
          rewrite list_lookup_fmap; [rewrite Hi | rewrite Hj, Heq]; reflexivity. }
      destruct (best_leb score_leb (bestScore score_leb a) (bestScore score_leb b))
        eqn:Eab.
      * apply andb_true_iff in Hab as [Hba Hh]. apply Nat.leb_le in Hh.
        split; [exact Hba | intros _; lia].
      * split; [|discriminate].
        destruct (best_leb_total (bestScore score_leb a) (bestScore score_leb b));
          [congruence | assumption].
    + intros r Hr. apply subseteq_take in Hr. rewrite Hp in Hr.
      apply elem_of_lookup_imap in Hr as (i & item & -> & Hi).
      exists item. cbn [handle relevance]. fold items. rewrite Hi.
      split; reflexivity.
    + intros h item a Hg Ha Hnot.
      destruct (items !! h) as [item'|] eqn:Hh; [|discriminate Hg].
      injection Hg as Hg. subst item'.
      assert (Hin : relevance similarity query h item ∈ sorted).
      { rewrite Hp. apply elem_of_lookup_imap. eauto. }
      apply list_elem_of_lookup in Hin as [j Hj].
      apply elem_of_take in Ha as (i & Hi & Hik).
      destruct (decide (j < Z.to_nat k)) as [Hjk | Hjk].
      { exfalso. apply Hnot. apply elem_of_take. eauto. }
      eapply (StronglySorted_lookup _ _ i j); [exact Hs | lia | exact Hi | exact Hj].
Qed.

End ProviderProperties.

(** ** The model at work on integer vectors *)

Example ranking_ties_by_insertion :
  handles_and_scores
    (getRelevant dot Z.leb (FileBacked sample_store) [1; 0; 0]%Z 2)
  = Some [(0, Some 1%Z); (2, Some 1%Z)].
Proof. vm_compute. reflexivity. Qed.

Example ranking_all :
  handles_and_scores
    (getRelevant dot Z.leb (FileBacked sample_store) [0; 1; 0]%Z 5)
  = Some [(1, Some 1%Z); (0, Some 0%Z); (2, Some 0%Z)].
Proof. vm_compute. reflexivity. Qed.

Example ranking_nonpositive_k :
  getRelevant dot Z.leb (FileBacked sample_store) [1; 0; 0]%Z (-1) = inr [].
Proof. reflexivity. Qed.

Example ranking_wrong_length :
  getRelevant dot Z.leb (FileBacked sample_store) [1; 0]%Z 2
  = inl DimensionMismatch.
Proof. reflexivity. Qed.

Lemma Z_leb_total (a b : Z) : (a <=? b)%Z = true \/ (b <=? a)%Z = true.
Proof. rewrite !Z.leb_le. lia. Defined.

Lemma Z_leb_trans (a b c : Z) :
  (a <=? b)%Z = true -> (b <=? c)%Z = true -> (a <=? c)%Z = true.
Proof. rewrite !Z.leb_le. lia. Defined.

Lemma no_memory_discards_witness :
  memory_backend (mkConfig "no_memory" "memory.json" 3) = "no_memory"
  /\ fst (get_memory (mkConfig "no_memory" "memory.json" 3) import_state)
     = inr NoMemory
  /\ (forall (cs : list (call (scalar := Z))) (disk : Disk),
        exists rs,
          perform_all dot Z.leb cs Null disk = (rs, Null, disk)
          /\ Forall2 null_reply cs rs).
Proof.
  split; [reflexivity|].
  pose proof (no_memory_discards dot Z.leb
                (mkConfig "no_memory" "memory.json" 3) import_state eq_refl)
    as (Hsel & _ & _ & _ & _ & _ & Hall).
  split; [exact Hsel | exact Hall].
Defined.

Lemma add_dimension_mismatch_witness :
  provider_dim (FileBacked sample_store) = Some 3
  /\ [1; 0]%Z ∈ all_embeddings (single_chunk "short" [1; 0]%Z)
  /\ length [1; 0]%Z <> 3
  /\ add (FileBacked sample_store) ∅ (single_chunk "short" [1; 0]%Z)
     = (inl DimensionMismatch, FileBacked sample_store, ∅)
  /\ count (snd (fst (add (FileBacked sample_store) ∅
                         (single_chunk "short" [1; 0]%Z))))
     = count (FileBacked sample_store).
Proof.
  assert (Hd : provider_dim (FileBacked sample_store) = Some 3) by reflexivity.
  assert (He : [1; 0]%Z ∈ all_embeddings (single_chunk "short" [1; 0]%Z))
    by (cbn; constructor).
  assert (Hl : length [1; 0]%Z <> 3) by (cbn; lia).
  split; [exact Hd|]. split; [exact He|]. split; [exact Hl|].
  exact (add_dimension_mismatch (FileBacked sample_store) ∅
           (single_chunk "short" [1; 0]%Z) 3 [1; 0]%Z Hd He Hl).
Defined.

Lemma getRelevant_ranked_witness :
  (forall a b : Z, (a <=? b)%Z = true \/ (b <=? a)%Z = true)
  /\ (forall a b c : Z,
        (a <=? b)%Z = true -> (b <=? c)%Z = true -> (a <=? c)%Z = true)
  /\ exists rs,
       getRelevant dot Z.leb (FileBacked sample_store) [1; 0; 0]%Z 2 = inr rs
       /\ length rs = 2
       /\ (forall i j a b, i < j -> rs !! i = Some a -> rs !! j = Some b ->
             best_leb Z.leb (bestScore Z.leb b) (bestScore Z.leb a) = true
             /\ (best_leb Z.leb (bestScore Z.leb a) (bestScore Z.leb b) = true
                 -> handle a < handle b)).
Proof.
  split; [exact Z_leb_total|]. split; [exact Z_leb_trans|].
  destruct (getRelevant_ranked dot Z.leb Z_leb_total Z_leb_trans
              (FileBacked sample_store) [1; 0; 0]%Z 2) as [_ H].
  destruct H as (rs & E & Hlen & _ & _ & Hord & _).
  { intros D HD. injection HD as <-. reflexivity. }
  exists rs. split; [exact E|]. split; [exact Hlen | exact Hord].
Defined.

(** * Further properties of the selector *)

Lemma instance_for_json_file (config : Config) :
  memory_backend config = "json_file" \/ memory_backend config = "local" ->
  instance_for config = [JSONFileMemory config].
Proof.
  intros H. unfold instance_for. rewrite bool_decide_eq_true_2; [reflexivity|].
  rewrite !elem_of_cons. tauto.
Qed.

Lemma instance_for_no_memory (config : Config) :
  memory_backend config = "no_memory" -> instance_for config = [NoMemory].
Proof.
  intros H. unfold instance_for. rewrite bool_decide_eq_false_2.
  - rewrite bool_decide_eq_true_2; [reflexivity | exact H].
  - rewrite H, !elem_of_cons, elem_of_nil. intros [E | [E | []]]; discriminate E.
Qed.

Lemma instance_for_other (config : Config) :
  memory_backend config ∉ active_names -> instance_for config = [].
Proof.
  unfold active_names. rewrite !not_elem_of_cons. intros (H1 & H2 & H3 & _).
  unfold instance_for. rewrite bool_decide_eq_false_2.
  - rewrite bool_decide_eq_false_2; [reflexivity | exact H3].
  - rewrite !elem_of_cons, elem_of_nil. tauto.
Qed.

(** X1: the state [get_memory] leaves is the state it found, plus the
    returned instance in the construction log when it returns; a call that
    raises leaves no trace. *)
Theorem get_memory_effect (config : Config) (s : State) :
  snd (get_memory config s)
  = match fst (get_memory config s) with
    | inr p => after_construct s p
    | inl _ => s
    end.
Proof. backend_cases config; reflexivity. Qed.

(** X2: [get_memory] raises [NotImplementedError] exactly for the three
    retired names and [ValueError] exactly for the names that are neither
    active nor retired. *)
Theorem get_memory_error_kinds (config : Config) (s : State) :
  ((exists msg, fst (get_memory config s) = inl (NotImplementedError msg))
   <-> memory_backend config ∈ retired_names)
  /\ ((exists msg, fst (get_memory config s) = inl (ValueError msg))
      <-> ((memory_backend config ∉ active_names)
           /\ (memory_backend config ∉ retired_names))).
Proof.
  unfold active_names, retired_names.
  rewrite !not_elem_of_cons, !elem_of_cons, elem_of_nil.
  backend_cases config; cbn [fst];
    (split; split;
     [ intros [msg E]; first [discriminate E | tauto]
     | intros H; first [eexists; reflexivity | exfalso; tauto]
     | intros [msg E]; first [discriminate E | tauto]
     | intros H; first [eexists; reflexivity | exfalso; tauto] ]).
Qed.

(** X3: what [get_memory] returns or raises does not depend on the state
    it runs in; in particular a name appended to the supported-backends
    list does not change the selection. *)
Theorem get_memory_ignores_state (config : Config) (s s' : State) (x : string) :
  fst (get_memory config s) = fst (get_memory config s')
  /\ fst (get_memory config (snd (list_append supported_memory x s)))
     = fst (get_memory config s).
Proof. split; backend_cases config; reflexivity. Qed.

Lemma module_step_constructed (s : State) (c : module_call) :
  constructed (module_step s c) = (constructed s ++ instances_of [c])%list.
Proof.
  destruct c as [config|]; cbn [module_step instances_of flat_map].
  - rewrite app_nil_r.
    destruct (decide (memory_backend config ∈ active_names)) as [H | H].
    + apply active_cases in H as [E | [E | E]].
      * rewrite get_memory_json_file, instance_for_json_file by auto. reflexivity.
      * rewrite get_memory_json_file, instance_for_json_file by auto. reflexivity.
      * rewrite get_memory_no_memory, instance_for_no_memory by auto. reflexivity.
    + destruct (get_memory_raises config s H) as [e ->].
      rewrite instance_for_other by exact H. cbn. rewrite app_nil_r. reflexivity.
  - cbn. rewrite app_nil_r. reflexivity.
Qed.

Lemma instances_of_cons (c : module_call) (cs : list module_call) :
  instances_of (c :: cs) = (instances_of [c] ++ instances_of cs)%list.
Proof. unfold instances_of. cbn. rewrite app_nil_r. reflexivity. Qed.

(** X4: the module keeps no instance: after any sequence of calls the
    construction log has grown by one fresh instance for every call of
    [get_memory] with an active name, in call order, and by nothing for
    the calls that raised or only asked for the supported backends. *)
Theorem module_run_constructed (cs : list module_call) (s : State) :
  constructed (module_run cs s) = (constructed s ++ instances_of cs)%list.
Proof.
  unfold module_run. revert s.
  induction cs as [|c cs IH]; intros s.
  - cbn. rewrite app_nil_r. reflexivity.
  - cbn [foldl]. rewrite IH, module_step_constructed, (instances_of_cons c cs).
    rewrite app_assoc. reflexivity.
Qed.

(** X5: the selection reads nothing of the configuration but
    [memory_backend]: two configurations with the same backend name give
    the same exception or an instance of the same class. *)
Theorem get_memory_reads_backend_only
    (config1 config2 : Config) (s1 s2 : State) :
  memory_backend config1 = memory_backend config2 ->
  outcome_kind (fst (get_memory config1 s1))
  = outcome_kind (fst (get_memory config2 s2)).
Proof.
  intros E.
  destruct (decide (memory_backend config1 ∈ active_names)) as [H | H].
  - pose proof H as H'. rewrite E in H'.
    apply active_cases in H as [H | [H | H]];
      apply active_cases in H' as [H' | [H' | H']]; try congruence;
      repeat first [ rewrite get_memory_json_file by auto
                   | rewrite get_memory_no_memory by auto ];
      reflexivity.
  - pose proof H as H'. rewrite E in H'. revert H H'.
    unfold active_names. rewrite !not_elem_of_cons. intros H H'.
    backend_cases config1; try tauto; backend_cases config2; try tauto;
      cbn; congruence.
Qed.

Lemma get_memory_reads_backend_only_witness :
  memory_backend (mkConfig "local" "a.json" 3)
  = memory_backend (mkConfig "local" "b.json" 1536)
  /\ outcome_kind (fst (get_memory (mkConfig "local" "a.json" 3) import_state))
     = outcome_kind
         (fst (get_memory (mkConfig "local" "b.json" 1536) import_state)).
Proof.
  split; [reflexivity|].
  exact (get_memory_reads_backend_only (mkConfig "local" "a.json" 3)
           (mkConfig "local" "b.json" 1536) import_state import_state eq_refl).
Defined.

Lemma app_String (c : ascii) (a b : string) : String c a ++ b = String c (a ++ b).
Proof. reflexivity. Qed.

Lemma app_Empty (b : string) : EmptyString ++ b = b.
Proof. reflexivity. Qed.

Lemma string_length_app (a b : string) :
  String.length (a ++ b) = String.length a + String.length b.
Proof.
  induction a as [|c a IH]; [reflexivity|].
  rewrite app_String. cbn [String.length]. rewrite IH. reflexivity.
Qed.

Lemma string_app_inv_tail (a b c : string) : a ++ c = b ++ c -> a = b.
Proof.
  revert b. induction a as [|x a IH]; intros [|y b] H;
    rewrite ?app_String, ?app_Empty in H.
  - reflexivity.
  - apply (f_equal String.length) in H. cbn [String.length] in H.
    rewrite string_length_app in H. lia.
  - apply (f_equal String.length) in H. cbn [String.length] in H.
    rewrite string_length_app in H. lia.
  - injection H as -> H. rewrite (IH b H). reflexivity.
Qed.

Lemma unknown_message_inj (b1 b2 : string) :
  unknown_message b1 = unknown_message b2 -> b1 = b2.
Proof.
  unfold unknown_message. intros H.
  apply (inj (String.app "Unknown memory backend '")) in H.
  exact (string_app_inv_tail _ _ _ H).
Qed.

(** X6: the error raised for an unknown backend identifies the offending
    name: two unknown names that make [get_memory] raise the same
    exception are the same name. *)
Theorem unknown_backend_error_identifies_name
    (config1 config2 : Config) (s1 s2 : State) :
  memory_backend config1 ∉ active_names ->
  memory_backend config1 ∉ retired_names ->
  memory_backend config2 ∉ active_names ->
  memory_backend config2 ∉ retired_names ->
  fst (get_memory config1 s1) = fst (get_memory config2 s2) ->
  memory_backend config1 = memory_backend config2.
Proof.
  intros Ha1 Hr1 Ha2 Hr2.
  rewrite (get_memory_unknown _ _ Ha1 Hr1), (get_memory_unknown _ _ Ha2 Hr2).
  cbn [fst]. intros H. apply unknown_message_inj. congruence.
Qed.

Lemma unknown_backend_error_identifies_name_witness :
  ("milvus" ∉ active_names)
  /\ ("milvus" ∉ retired_names)
  /\ fst (get_memory (mkConfig "milvus" "a.json" 3) import_state)
     = fst (get_memory (mkConfig "milvus" "b.json" 5)
              (after_construct import_state NoMemory))
  /\ memory_backend (mkConfig "milvus" "a.json" 3)
     = memory_backend (mkConfig "milvus" "b.json" 5).
Proof.
  assert (Ha : "milvus" ∉ active_names).
  { intros H. apply active_cases in H as [E | [E | E]]; discriminate E. }
  assert (Hr : "milvus" ∉ retired_names).
  { intros H. apply retired_cases in H as [E | [E | E]]; discriminate E. }
  assert (He : fst (get_memory (mkConfig "milvus" "a.json" 3) import_state)
               = fst (get_memory (mkConfig "milvus" "b.json" 5)
                        (after_construct import_state NoMemory)))
    by reflexivity.
  split; [exact Ha|]. split; [exact Hr|]. split; [exact He|].
  exact (unknown_backend_error_identifies_name
           (mkConfig "milvus" "a.json" 3) (mkConfig "milvus" "b.json" 5)
           import_state (after_construct import_state NoMemory)
           Ha Hr Ha Hr He).
Defined.

(** X7: a name a caller appends to the list handed out by
    [get_supported_memory_backends] is part of what the accessor yields
    from then on, also after any further calls of the module. *)
Theorem appended_name_is_returned
    (x : string) (l : list string) (s : State) (cs : list module_call) :
  heap s !! supported_memory = Some l ->
  fst (append_then_ask x s) = inr (l ++ [x])%list
  /\ fst (supported_backends_now
            (module_run cs (snd (list_append supported_memory x s))))
     = inr (l ++ [x])%list.
Proof.
  intros H.
  unfold append_then_ask, supported_backends_now,
    get_supported_memory_backends, bind, ret, list_contents, list_append.
  cbn. rewrite module_run_heap. rewrite H. cbn.
  rewrite lookup_insert_eq. split; reflexivity.
Qed.

Lemma appended_name_is_returned_witness :
  heap import_state !! supported_memory = Some ["json_file"; "no_memory"]
  /\ fst (append_then_ask "redis" import_state)
     = inr ["json_file"; "no_memory"; "redis"]
  /\ fst (supported_backends_now
            (module_run [GetMemory (mkConfig "redis" "memory.json" 3)]
               (snd (list_append supported_memory "redis" import_state))))
     = inr ["json_file"; "no_memory"; "redis"].
Proof.
  assert (H : heap import_state !! supported_memory
              = Some ["json_file"; "no_memory"]) by reflexivity.
  split; [exact H|].
  exact (appended_name_is_returned "redis" ["json_file"; "no_memory"]
           import_state [GetMemory (mkConfig "redis" "memory.json" 3)] H).
Defined.

(** * Properties of the test helper [lst] *)

Lemma split_char_no_sep (sep : ascii) (s : string) (n : nat) :
  has_char sep s = false -> split_char sep s n = [s].
Proof.
  induction s as [|c s IH]; intros H; [reflexivity|].
  cbn [has_char] in H. apply orb_false_iff in H as [Hc Hs].
  cbn [split_char]. destruct n as [|n]; [reflexivity|].
  rewrite Hc, (IH Hs). reflexivity.
Qed.

Lemma split_char_first (sep : ascii) (pre rest : string) :
  has_char sep pre = false ->
  split_char sep (pre ++ String sep rest) 1 = [pre; rest].
Proof.
  induction pre as [|c pre IH]; intros H.
  - rewrite app_Empty. cbn [split_char]. rewrite Ascii.eqb_refl.
    destruct rest; reflexivity.
  - cbn [has_char] in H. apply orb_false_iff in H as [Hc Hs].
    rewrite app_String. cbn [split_char]. rewrite Hc, (IH Hs). reflexivity.
Qed.

Lemma has_char_split (c : ascii) (s : string) :
  has_char c s = true ->
  exists pre rest, s = pre ++ String c rest /\ has_char c pre = false.
Proof.
  induction s as [|d s IH]; cbn [has_char]; intros H; [discriminate|].
  destruct (Ascii.eqb d c) eqn:Hd.
  - apply Ascii.eqb_eq in Hd as ->. exists EmptyString, s. split; reflexivity.
  - cbn in H. destruct (IH H) as (pre & rest & -> & Hpre).
    exists (String d pre), rest. split; [reflexivity|].
    cbn [has_char]. rewrite Hd, Hpre. reflexivity.
Qed.

Lemma lst_after_first_colon (pre rest : string) :
  has_char ":" pre = false ->
  lst (pre ++ String ":" rest) = inr (Path (strip rest)).
Proof. intros H. unfold lst. rewrite (split_char_first _ _ _ H). reflexivity. Qed.



Lemma lstrip_all_space (ws : string) : all_space ws = true -> lstrip ws = EmptyString.
Proof.
  induction ws as [|c ws IH]; [reflexivity|].
  cbn [all_space lstrip]. intros H. apply andb_true_iff in H as [Hc Hws].
  rewrite Hc. exact (IH Hws).
Qed.

Lemma lstrip_app_space (ws t : string) :
  all_space ws = true -> lstrip (ws ++ t) = lstrip t.
Proof.
  induction ws as [|c ws IH]; [reflexivity|].
  cbn [all_space]. intros H. apply andb_true_iff in H as [Hc Hws].
  rewrite app_String. cbn [lstrip]. rewrite Hc. exact (IH Hws).
Qed.

Lemma lstrip_id (t : string) : starts_with_space t = false -> lstrip t = t.
Proof. destruct t as [|c t]; [reflexivity|]. cbn. intros ->. reflexivity. Qed.



Lemma rstrip_all_space (ws : string) : all_space ws = true -> rstrip ws = EmptyString.
Proof.
  induction ws as [|c ws IH]; [reflexivity|].
  cbn [all_space rstrip]. intros H. apply andb_true_iff in H as [Hc Hws].
  rewrite (IH Hws), Hc. reflexivity.
Qed.

Lemma rstrip_app_space (t ws : string) :
  all_space ws = true -> rstrip (t ++ ws) = rstrip t.
Proof.
  intros H. induction t as [|c t IH].
  - rewrite app_Empty. exact (rstrip_all_space ws H).
  - rewrite app_String. cbn [rstrip]. rewrite IH. reflexivity.
Qed.

Lemma rstrip_id (t : string) : ends_with_space t = false -> rstrip t = t.
Proof.
  induction t as [|c t IH]; [reflexivity|].
  cbn [rstrip]. destruct t as [|d t].
  - cbn. intros ->. reflexivity.
  - intros H. rewrite (IH H). cbn [string_empty]. rewrite andb_false_r.
    reflexivity.
Qed.



Lemma strip_padded (ws1 p ws2 : string) :
  all_space ws1 = true -> all_space ws2 = true ->
  starts_with_space p = false -> ends_with_space p = false ->
  strip (ws1 ++ p ++ ws2) = p.
Proof.
  intros H1 H2 Hs He. unfold strip. rewrite (lstrip_app_space _ _ H1).
  destruct p as [|c p].
  - rewrite app_Empty, (lstrip_all_space _ H2). reflexivity.
  - rewrite lstrip_id by exact Hs.
    rewrite (rstrip_app_space _ _ H2). exact (rstrip_id _ He).
Qed.

(** X8: [lst] raises [IndexError] exactly on the texts without a
    colon. *)
Theorem lst_index_error (txt : string) :
  lst txt = inl IndexError <-> has_char ":" txt = false.
Proof.
  split.
  - intros H. destruct (has_char ":" txt) eqn:Hc; [|reflexivity].
    destruct (has_char_split _ _ Hc) as (pre & rest & -> & Hpre).
    rewrite (lst_after_first_colon _ _ Hpre) in H. discriminate H.
  - intros H. unfold lst. rewrite (split_char_no_sep _ _ _ H). reflexivity.
Qed.



(** X10: [lst] recovers a path from any text that puts it after the first
    colon: for a colon-free prefix and a path without white space at
    either end, padded by white space, the result is that path, further
    colons included. *)
Theorem lst_recovers_path (pre ws1 p ws2 : string) :
  has_char ":" pre = false ->
  all_space ws1 = true -> all_space ws2 = true ->
  starts_with_space p = false -> ends_with_space p = false ->
  lst (pre ++ ":" ++ ws1 ++ p ++ ws2) = inr (Path p).
Proof.
  intros Hpre H1 H2 Hs He.
  change (pre ++ ":" ++ ws1 ++ p ++ ws2)
    with (pre ++ String ":" (ws1 ++ p ++ ws2)).
  rewrite (lst_after_first_colon _ _ Hpre), (strip_padded _ _ _ H1 H2 Hs He).
  reflexivity.
Qed.

Lemma lst_recovers_path_witness :
  has_char ":" "Saved to disk" = false
  /\ all_space " " = true /\ all_space "" = true
  /\ starts_with_space "C:/img/a.jpg" = false
  /\ ends_with_space "C:/img/a.jpg" = false
  /\ lst ("Saved to disk" ++ ":" ++ " " ++ "C:/img/a.jpg" ++ "")
     = inr (Path "C:/img/a.jpg").
Proof.
  repeat (split; [reflexivity|]).
  exact (lst_recovers_path "Saved to disk" " " "C:/img/a.jpg" ""
           eq_refl eq_refl eq_refl eq_refl eq_refl).
Defined.
